(** * Conversion of propositional formulas to restricted operator bases

    A shallow embedding of [propositions/operators.py]: the five converters
    [to_not_and_or], [to_not_and], [to_nand], [to_implies_not] and
    [to_implies_false], and the properties the specification states for them
    (truth-table preservation, basis closure, defining equations, totality on
    well-formed formulas, structural identity on legal input, variables). *)

From stdpp Require Import base option strings gmap.
From Equations Require Import Equations.
From Stdlib Require Import Ascii String.

Open Scope string_scope.

(** ** Formula trees

    A Python [Formula] object carries a [root] string and, depending on how
    it was constructed, the attributes [first] and [second].  The three
    constructors are the three shapes of object the class can hold; the root
    is kept as the string the converters compare against. *)

Inductive Formula : Type :=
| Leaf (root : string)
| Unary (root : string) (first : Formula)
| Binary (root : string) (first second : Formula).

Definition root (formula : Formula) : string :=
  match formula with
  | Leaf r | Unary r _ | Binary r _ _ => r
  end.

#[global] Instance Formula_eq_dec : EqDecision Formula.
Proof. solve_decision. Defined.

(** ** Exceptions and results

    A converter either returns a formula or raises.  [ValueError] is the
    exception of the final [raise] of the three recursive converters;
    [AttributeError] is what reading [formula.first] or [formula.second] raises
    on an object that lacks the attribute. *)

Inductive exn : Type :=
| ValueError (msg : string)
| AttributeError (attr : string).

Inductive result (A : Type) : Type :=
| Ok (a : A)
| Err (e : exn).
Arguments Ok {A} a.
Arguments Err {A} e.

#[global] Instance result_ret : MRet result := @Ok.
#[global] Instance result_bind : MBind result :=
  λ A B k r, match r with Ok a => k a | Err e => Err e end.

(** ** Tags of the grammar

    Modelled from the spec: the tag predicates of [propositions/syntax.py],
    which is not among the sources.  Section 3 of the specification lists the
    constants [T] and [F], the unary operator [~] and the seven binary
    operators. *)

Definition is_constant (s : string) : bool :=
  bool_decide (s = "T") || bool_decide (s = "F").

Definition is_unary (s : string) : bool :=
  bool_decide (s = "~").

Definition binary_operators : list string :=
  ["&"; "|"; "->"; "+"; "<->"; "-&"; "-|"].

Definition is_binary (s : string) : bool :=
  bool_decide (s ∈ binary_operators).

(** The strings that are tags of constants and operators. *)
Definition reserved : list string :=
  ["T"; "F"; "~"] ++ binary_operators.

(** The specification does not say which strings are variable names, so the
    converters are developed over any name predicate [is_variable].  The name
    convention of the accompanying book (a letter from [p] to [z], then
    decimal digits) is the instance at which the results are evaluated. *)

Definition is_digit (c : ascii) : bool :=
  (Ascii.leb "0" c && Ascii.leb c "9")%char.

Definition is_variable_std (s : string) : bool :=
  match s with
  | EmptyString => false
  | String c rest =>
      (Ascii.leb "p" c && Ascii.leb c "z")%char
      && forallb is_digit (list_ascii_of_string rest)
  end.

(** The height of a formula tree, the depth of the converters' recursion. *)
Fixpoint height (formula : Formula) : nat :=
  match formula with
  | Leaf _ => 1
  | Unary _ first => S (height first)
  | Binary _ first second => S (Nat.max (height first) (height second))
  end.

(** The two trees [convert] (in [to_nand]) builds: for a negation, from the
    converted operand; for a conjunction, from the converted operands. *)
Definition nand_not (inner : Formula) : Formula := Binary "-&" inner inner.
Definition nand_and (first second : Formula) : Formula :=
  let nand := Binary "-&" first second in Binary "-&" nand nand.

(** Formulas and models at which the results are evaluated. *)
Definition xor_xp : Formula := Binary "+" (Leaf "x") (Leaf "p").
Definition iff_xT : Formula := Binary "<->" (Leaf "x") (Leaf "T").
Definition model_xp : gmap string bool := <["x" := true]> (<["p" := false]> ∅).
Definition model_xy : gmap string bool := <["x" := true]> (<["y" := false]> ∅).

(** Modelled from the spec: truth tables of the binary operators, for the
    evaluator of [propositions/semantics.py], which is not among the
    sources. *)
Definition binary_table (op : string) (x y : bool) : option bool :=
  if decide (op = "&") then Some (x && y)
  else if decide (op = "|") then Some (x || y)
  else if decide (op = "->") then Some (implb x y)
  else if decide (op = "+") then Some (xorb x y)
  else if decide (op = "<->") then Some (Bool.eqb x y)
  else if decide (op = "-&") then Some (negb (x && y))
  else if decide (op = "-|") then Some (negb (x || y))
  else None.

Section Converters.

Variable is_variable : string → bool.

(** *** Well-formed formulas

    Modelled from the spec: the grammar of section 3.  A leaf is a variable
    or a constant, a unary node carries [~], a binary node one of the seven
    binary operators. *)
Fixpoint wf (formula : Formula) : bool :=
  match formula with
  | Leaf r => is_variable r || is_constant r
  | Unary r first => is_unary r && wf first
  | Binary r first second => is_binary r && wf first && wf second
  end.

(** Modelled from the spec: evaluation of a formula in a model, a dictionary
    from variable names to truth values.  A variable missing from the model
    has no value. *)
Fixpoint evaluate (formula : Formula) (model : gmap string bool) : option bool :=
  match formula with
  | Leaf r =>
      if is_variable r then model !! r
      else if decide (r = "T") then Some true
      else if decide (r = "F") then Some false
      else None
  | Unary r first =>
      if is_unary r then negb <$> evaluate first model else None
  | Binary r first second =>
      x ← evaluate first model;
      y ← evaluate second model;
      binary_table r x y
  end.

(** Modelled from the spec: the variable names occurring in a formula. *)
Fixpoint variables (formula : Formula) : gset string :=
  match formula with
  | Leaf r => if is_variable r then {[ r ]} else ∅
  | Unary _ first => variables first
  | Binary _ first second => variables first ∪ variables second
  end.

(** Modelled from the spec: the operator and constant tags occurring in a
    formula. *)
Fixpoint operators (formula : Formula) : gset string :=
  match formula with
  | Leaf r => if is_variable r then ∅ else {[ r ]}
  | Unary r first => {[ r ]} ∪ operators first
  | Binary r first second => {[ r ]} ∪ operators first ∪ operators second
  end.

(** Whether a constant leaf occurs in a formula. *)
Fixpoint has_constant (formula : Formula) : bool :=
  match formula with
  | Leaf r => negb (is_variable r) && is_constant r
  | Unary _ first => has_constant first
  | Binary _ first second => has_constant first || has_constant second
  end.

(** ** The converters *)

(** [to_not_and_or], lines 13-54. *)
Fixpoint to_not_and_or (formula : Formula) : result Formula :=
  if is_variable (root formula) then Ok formula
  else if is_constant (root formula) then
    let p := Leaf "p" in
    if decide (root formula = "T") then Ok (Binary "|" p (Unary "~" p))
    else Ok (Binary "&" p (Unary "~" p))
  else if is_unary (root formula) then
    match formula with
    | Leaf _ => Err (AttributeError "first")
    | Unary _ f | Binary _ f _ =>
        first ← to_not_and_or f; Ok (Unary "~" first)
    end
  else
    match formula with
    | Leaf _ => Err (AttributeError "first")
    | Unary _ f => _ ← to_not_and_or f; Err (AttributeError "second")
    | Binary _ f s =>
        first ← to_not_and_or f;
        second ← to_not_and_or s;
        if decide (root formula = "&") then Ok (Binary "&" first second)
        else if decide (root formula = "|") then Ok (Binary "|" first second)
        else if decide (root formula = "->") then
          Ok (Binary "|" (Unary "~" first) second)
        else if decide (root formula = "+") then
          Ok (Binary "|"
                (Binary "&" first (Unary "~" second))
                (Binary "&" (Unary "~" first) second))
        else if decide (root formula = "<->") then
          Ok (Binary "|"
                (Binary "&" first second)
                (Binary "&" (Unary "~" first) (Unary "~" second)))
        else if decide (root formula = "-&") then
          Ok (Unary "~" (Binary "&" first second))
        else if decide (root formula = "-|") then
          Ok (Unary "~" (Binary "|" first second))
        else Err (ValueError ("Unknown operator: " ++ root formula))
    end.

(** [to_not_and], lines 56-96.  The call for [<->] is on a formula built on
    the spot, [Formula('+', formula.first, formula.second)], not on an
    operand; the recursion is by the number of nodes, a [<->] node counted
    twice.  The clauses are the shapes of object, and within each the tests
    come in the source's order. *)
Fixpoint weight (formula : Formula) : nat :=
  match formula with
  | Leaf _ => 1
  | Unary _ first => S (weight first)
  | Binary r first second =>
      (if decide (r = "<->") then 2 else 1) + weight first + weight second
  end.

Equations? to_not_and (formula : Formula) : result Formula
  by wf (weight formula) lt :=
to_not_and (Leaf r) :=
  if is_variable r then Ok (Leaf r)
  else if is_constant r then
    let p := Leaf "p" in
    let contradiction := Binary "&" p (Unary "~" p) in
    if decide (r = "F") then Ok contradiction
    else Ok (Unary "~" contradiction)
  else Err (AttributeError "first");
to_not_and (Unary r f) :=
  if is_variable r then Ok (Unary r f)
  else if is_constant r then
    let p := Leaf "p" in
    let contradiction := Binary "&" p (Unary "~" p) in
    if decide (r = "F") then Ok contradiction
    else Ok (Unary "~" contradiction)
  else if is_unary r then
    first ← to_not_and f; Ok (Unary "~" first)
  else
    _ ← to_not_and f; Err (AttributeError "second");
to_not_and (Binary r f s) :=
  if is_variable r then Ok (Binary r f s)
  else if is_constant r then
    let p := Leaf "p" in
    let contradiction := Binary "&" p (Unary "~" p) in
    if decide (r = "F") then Ok contradiction
    else Ok (Unary "~" contradiction)
  else if is_unary r then
    first ← to_not_and f; Ok (Unary "~" first)
  else
    first ← to_not_and f;
    second ← to_not_and s;
    if decide (r = "&") then Ok (Binary "&" first second)
    else if decide (r = "|") then
      Ok (Unary "~" (Binary "&" (Unary "~" first) (Unary "~" second)))
    else if decide (r = "->") then
      Ok (Unary "~" (Binary "&" first (Unary "~" second)))
    else if decide (r = "+") then
      let left := Binary "&" first (Unary "~" second) in
      let right := Binary "&" (Unary "~" first) second in
      Ok (Unary "~" (Binary "&" (Unary "~" left) (Unary "~" right)))
    else
      match decide (r = "<->") with
      | left _ =>
          xor ← to_not_and (Binary "+" f s); Ok (Unary "~" xor)
      | right _ =>
          if decide (r = "-&") then Ok (Unary "~" (Binary "&" first second))
          else if decide (r = "-|") then
            Ok (Binary "&" (Unary "~" first) (Unary "~" second))
          else Err (ValueError ("Unknown operator: " ++ r))
      end.
Proof.
  all: cbn; repeat case_decide; subst; cbn; lia.
Qed.

(** [to_nand], lines 98-120, with its nested function [convert]. *)
Fixpoint convert (f : Formula) : result Formula :=
  if is_variable (root f) then Ok f
  else if is_unary (root f) then
    match f with
    | Leaf _ => Err (AttributeError "first")
    | Unary _ a | Binary _ a _ =>
        inner ← convert a; Ok (Binary "-&" inner inner)
    end
  else
    match f with
    | Leaf _ => Err (AttributeError "first")
    | Unary _ a => _ ← convert a; Err (AttributeError "second")
    | Binary _ a b =>
        first ← convert a;
        second ← convert b;
        let nand := Binary "-&" first second in
        Ok (Binary "-&" nand nand)
    end.

Definition to_nand (formula : Formula) : result Formula :=
  not_and ← to_not_and formula; convert not_and.

(** [to_implies_not], lines 122-163, with its helper builders. *)
Definition imp (a b : Formula) : Formula := Binary "->" a b.
Definition neg (a : Formula) : Formula := Unary "~" a.

Fixpoint to_implies_not (formula : Formula) : result Formula :=
  if is_variable (root formula) then Ok formula
  else if is_constant (root formula) then
    let p := Leaf "p" in
    let t := imp p p in
    if decide (root formula = "T") then Ok t
    else Ok (neg t)
  else if is_unary (root formula) then
    match formula with
    | Leaf _ => Err (AttributeError "first")
    | Unary _ f | Binary _ f _ =>
        first ← to_implies_not f; Ok (neg first)
    end
  else
    match formula with
    | Leaf _ => Err (AttributeError "first")
    | Unary _ f => _ ← to_implies_not f; Err (AttributeError "second")
    | Binary _ f s =>
        first ← to_implies_not f;
        second ← to_implies_not s;
        if decide (root formula = "->") then Ok (imp first second)
        else if decide (root formula = "|") then Ok (imp (neg first) second)
        else if decide (root formula = "&") then
          Ok (neg (imp first (neg second)))
        else if decide (root formula = "+") then
          Ok (imp (imp first second) (neg (imp second first)))
        else if decide (root formula = "<->") then
          Ok (neg (imp (imp first second) (neg (imp second first))))
        else if decide (root formula = "-&") then
          Ok (imp first (neg second))
        else if decide (root formula = "-|") then
          Ok (neg (imp (neg first) second))
        else Err (ValueError ("Unknown operator: " ++ root formula))
    end.

(** [to_implies_false], lines 165-183, with its nested function
    [eliminate]. *)
Fixpoint eliminate (f : Formula) : result Formula :=
  if is_variable (root f) then Ok f
  else if is_unary (root f) then
    match f with
    | Leaf _ => Err (AttributeError "first")
    | Unary _ a | Binary _ a _ =>
        first ← eliminate a; Ok (Binary "->" first (Leaf "F"))
    end
  else
    match f with
    | Leaf _ => Err (AttributeError "first")
    | Unary _ a => _ ← eliminate a; Err (AttributeError "second")
    | Binary _ a b =>
        first ← eliminate a;
        second ← eliminate b;
        Ok (Binary "->" first second)
    end.

Definition to_implies_false (formula : Formula) : result Formula :=
  implies_not ← to_implies_not formula; eliminate implies_not.

(** ** The five entry points

    The converters by name, each with the basis its docstring declares. *)
Inductive converter : Type :=
| NotAndOr | NotAnd | Nand | ImpliesNot | ImpliesFalse.

Definition run (c : converter) : Formula → result Formula :=
  match c with
  | NotAndOr => to_not_and_or
  | NotAnd => to_not_and
  | Nand => to_nand
  | ImpliesNot => to_implies_not
  | ImpliesFalse => to_implies_false
  end.

Definition basis (c : converter) : gset string :=
  match c with
  | NotAndOr => {[ "~"; "&"; "|" ]}
  | NotAnd => {[ "~"; "&" ]}
  | Nand => {[ "-&" ]}
  | ImpliesNot => {[ "->"; "~" ]}
  | ImpliesFalse => {[ "->"; "F" ]}
  end.

(** The converters that are a single recursive pass over the input; the
    other two run one of these and then a second pass. *)
Definition single_pass (c : converter) : bool :=
  match c with
  | NotAndOr | NotAnd | ImpliesNot => true
  | Nand | ImpliesFalse => false
  end.

(** A bound on how much higher than its input the result of a converter
    can be, as a factor. *)
Definition growth (c : converter) : nat :=
  match c with
  | NotAndOr => 3
  | NotAnd => 6
  | Nand => 12
  | ImpliesNot => 4
  | ImpliesFalse => 4
  end.

(** What a correct conversion of [f] into the basis [B] is: the result is a
    formula of the grammar over [B], its variables are those of [f] and
    possibly [p], only those of [f] when [f] has no constant, and it has the
    value of [f] in every model that gives [p] a value, in every model at all
    when [f] has no constant. *)
Record converts (B : gset string) (f g : Formula) : Prop := Converts {
  converts_wf : wf g = true;
  converts_basis : operators g ⊆ B;
  converts_vars : variables g ⊆ variables f ∪ {[ "p" ]};
  converts_vars_nc : has_constant f = false → variables g ⊆ variables f;
  converts_eval : ∀ m : gmap string bool,
    has_constant f = false ∨ is_Some (m !! "p") →
    evaluate g m = evaluate f m
}.

(** ** Assumptions on variable names

    The helper name [p] is a variable name, and no tag of a constant or of an
    operator is one. *)
Hypothesis is_variable_p : is_variable "p" = true.
Hypothesis is_variable_reserved :
  forallb (λ r, negb (is_variable r)) reserved = true.

Lemma reserved_not_variable r : r ∈ reserved → is_variable r = false.
Proof.
  intros Hr. pose proof is_variable_reserved as Hall.
  rewrite forallb_forall in Hall.
  apply negb_true_iff, Hall, list_elem_of_In, Hr.
Qed.

(** Rewrites [is_variable] at the helper name and at every closed tag. *)
Ltac tags :=
  repeat first
    [ rewrite is_variable_p
    | match goal with
      | |- context [is_variable ?s] =>
          rewrite (reserved_not_variable s)
            by (by apply (bool_decide_unpack _))
      end ].

(** Splits a hypothesis [is_binary r = true] into the seven operators. *)
Ltac binary_cases H :=
  apply bool_decide_eq_true_1 in H; unfold binary_operators in H;
  repeat (apply elem_of_cons in H as [-> | H]);
  [ .. | by apply elem_of_nil in H ].

Lemma is_constant_cases r : is_constant r = true → r = "T" ∨ r = "F".
Proof.
  unfold is_constant. intros [H | H]%orb_true_iff;
    apply bool_decide_eq_true_1 in H; auto.
Qed.

Lemma is_unary_eq r : is_unary r = true → r = "~".
Proof. apply bool_decide_eq_true_1. Qed.

Lemma model_cond_l (c1 c2 : bool) (m : gmap string bool) :
  c1 || c2 = false ∨ is_Some (m !! "p") → c1 = false ∨ is_Some (m !! "p").
Proof. rewrite orb_false_iff. tauto. Qed.

Lemma model_cond_r (c1 c2 : bool) (m : gmap string bool) :
  c1 || c2 = false ∨ is_Some (m !! "p") → c2 = false ∨ is_Some (m !! "p").
Proof. rewrite orb_false_iff. tauto. Qed.

(** Case analysis on the values of the operands once they are rewritten. *)
Ltac eval_cases :=
  repeat match goal with
  | |- context [evaluate ?f ?m] => destruct (evaluate f m) as [[]|]
  | |- context [?m !! "p"] => destruct (m !! "p") as [[]|] eqn:?
  end; try reflexivity.

(** Closes [converts B f g] for a node [f] whose operands were converted
    correctly: the facts about the operands are in the context. *)
Ltac converts_node :=
  repeat match goal with
  | H : converts _ _ _ |- _ =>
      let W := fresh "W" in let N := fresh "N" in let E := fresh "E" in
      destruct H as [W ? ? N E]
  end;
  split; simpl; tags; simpl;
  [ repeat match goal with W : wf _ = true |- _ => rewrite W; clear W end;
    reflexivity
  | repeat match goal with
    | H : ∀ _ : gmap string bool, _ |- _ => clear H
    | H : has_constant _ = false → _ |- _ => clear H
    | H : variables _ ⊆ _ |- _ => clear H
    end; set_solver
  | repeat match goal with
    | H : ∀ _ : gmap string bool, _ |- _ => clear H
    | H : has_constant _ = false → _ |- _ => clear H
    | H : operators _ ⊆ _ |- _ => clear H
    end; set_solver
  | let Hc := fresh "Hc" in
    rewrite ?orb_false_iff; intros Hc;
    repeat match goal with
    | N : has_constant _ = false → _ |- _ => specialize (N ltac:(tauto))
    end;
    repeat match goal with
    | H : ∀ _ : gmap string bool, _ |- _ => clear H
    | H : operators _ ⊆ _ |- _ => clear H
    | H : variables _ ⊆ _ ∪ _ |- _ => clear H
    end; set_solver
  | let m := fresh "m" in let Hm := fresh "Hm" in
    intros m Hm;
    repeat match goal with
    | E : ∀ m, _ → evaluate ?g m = _ |- context [evaluate ?g m] =>
        rewrite (E m) by eauto using model_cond_l, model_cond_r
    end;
    eval_cases ].

Lemma converts_variable B x :
  is_variable x = true → converts B (Leaf x) (Leaf x).
Proof.
  intros Hx. split; simpl; rewrite ?Hx; try done; set_solver.
Qed.

(** The encodings of the constants are closed by looking [p] up. *)
Ltac converts_constant :=
  split; simpl; tags; simpl;
  [ reflexivity | set_solver | set_solver | by intros [=]
  | let m := fresh "m" in
    intros m [[=] | [[] Hp]]; rewrite Hp; reflexivity ].

Lemma to_not_and_or_converts f :
  wf f = true →
  ∃ g, to_not_and_or f = Ok g ∧ converts {[ "~"; "&"; "|" ]} f g.
Proof.
  induction f as [r | r a IHa | r a IHa b IHb]; simpl; intros Hwf.
  - destruct (is_variable r) eqn:Hv.
    + eauto using converts_variable.
    + apply is_constant_cases in Hwf as [-> | ->]; simpl;
        (eexists; split; [reflexivity|]); converts_constant.
  - apply andb_true_iff in Hwf as [->%is_unary_eq Ha].
    destruct (IHa Ha) as (a' & -> & Ca). tags. simpl.
    eexists; split; [reflexivity|]. converts_node.
  - apply andb_true_iff in Hwf as [[Hr Ha]%andb_true_iff Hb].
    destruct (IHa Ha) as (a' & -> & Ca), (IHb Hb) as (b' & -> & Cb).
    binary_cases Hr; tags; simpl;
      (eexists; split; [reflexivity|]); converts_node.
Qed.

Lemma to_not_and_converts f :
  wf f = true →
  ∃ g, to_not_and f = Ok g ∧ converts {[ "~"; "&" ]} f g.
Proof.
  induction f as [r | r a IHa | r a IHa b IHb]; simpl; intros Hwf.
  - rewrite to_not_and_equation_1. destruct (is_variable r) eqn:Hv.
    + eauto using converts_variable.
    + apply is_constant_cases in Hwf as [-> | ->]; simpl;
        (eexists; split; [reflexivity|]); converts_constant.
  - apply andb_true_iff in Hwf as [->%is_unary_eq Ha].
    destruct (IHa Ha) as (a' & Ea & Ca).
    rewrite to_not_and_equation_2, Ea. tags. simpl.
    eexists; split; [reflexivity|]. converts_node.
  - apply andb_true_iff in Hwf as [[Hr Ha]%andb_true_iff Hb].
    destruct (IHa Ha) as (a' & Ea & Ca), (IHb Hb) as (b' & Eb & Cb).
    binary_cases Hr;
      repeat (rewrite to_not_and_equation_3, Ea, Eb; tags; simpl);
      (eexists; split; [reflexivity|]); converts_node.
Qed.

Lemma to_implies_not_converts f :
  wf f = true →
  ∃ g, to_implies_not f = Ok g ∧ converts {[ "->"; "~" ]} f g.
Proof.
  induction f as [r | r a IHa | r a IHa b IHb]; simpl; intros Hwf.
  - destruct (is_variable r) eqn:Hv.
    + eauto using converts_variable.
    + apply is_constant_cases in Hwf as [-> | ->]; simpl;
        (eexists; split; [reflexivity|]); unfold imp, neg; converts_constant.
  - apply andb_true_iff in Hwf as [->%is_unary_eq Ha].
    destruct (IHa Ha) as (a' & -> & Ca). tags. simpl.
    eexists; split; [reflexivity|]. unfold imp, neg. converts_node.
  - apply andb_true_iff in Hwf as [[Hr Ha]%andb_true_iff Hb].
    destruct (IHa Ha) as (a' & -> & Ca), (IHb Hb) as (b' & -> & Cb).
    binary_cases Hr; tags; simpl;
      (eexists; split; [reflexivity|]); unfold imp, neg; converts_node.
Qed.

Lemma legal_no_constant (B : gset string) f :
  wf f = true → operators f ⊆ B → "T" ∉ B → "F" ∉ B → has_constant f = false.
Proof.
  intros Hwf HB HT HF.
  induction f as [r | r a IHa | r a IHa b IHb]; simpl in *.
  - destruct (is_variable r); [done|]. simpl.
    destruct (is_constant r) eqn:Hc; [|done].
    apply is_constant_cases in Hc as [-> | ->]; set_solver.
  - apply andb_true_iff in Hwf as [_ Ha]. apply IHa; [done | set_solver].
  - apply andb_true_iff in Hwf as [[_ Ha]%andb_true_iff Hb].
    rewrite IHa, IHb; [done | done | set_solver | done | set_solver].
Qed.

(** The second pass of [to_nand] on a formula over [~] and [&]. *)
Lemma convert_converts g :
  wf g = true → operators g ⊆ {[ "~"; "&" ]} →
  ∃ h, convert g = Ok h ∧ converts {[ "-&" ]} g h.
Proof.
  induction g as [r | r a IHa | r a IHa b IHb]; simpl; intros Hwf HB.
  - destruct (is_variable r) eqn:Hv.
    + eauto using converts_variable.
    + exfalso. apply is_constant_cases in Hwf as [-> | ->]; set_solver.
  - apply andb_true_iff in Hwf as [->%is_unary_eq Ha].
    destruct (IHa Ha) as (a' & -> & Ca); [set_solver|]. tags. simpl.
    eexists; split; [reflexivity|]. clear HB. converts_node.
  - apply andb_true_iff in Hwf as [[Hr Ha]%andb_true_iff Hb].
    destruct (IHa Ha) as (a' & -> & Ca); [set_solver|].
    destruct (IHb Hb) as (b' & -> & Cb); [set_solver|].
    binary_cases Hr; try (exfalso; clear -HB; set_solver).
    tags. simpl. eexists; split; [reflexivity|]. clear HB. converts_node.
Qed.

(** The second pass of [to_implies_false] on a formula over [->] and [~]. *)
Lemma eliminate_converts g :
  wf g = true → operators g ⊆ {[ "->"; "~" ]} →
  ∃ h, eliminate g = Ok h ∧ converts {[ "->"; "F" ]} g h.
Proof.
  induction g as [r | r a IHa | r a IHa b IHb]; simpl; intros Hwf HB.
  - destruct (is_variable r) eqn:Hv.
    + eauto using converts_variable.
    + exfalso. apply is_constant_cases in Hwf as [-> | ->]; set_solver.
  - apply andb_true_iff in Hwf as [->%is_unary_eq Ha].
    destruct (IHa Ha) as (a' & -> & Ca); [set_solver|]. tags. simpl.
    eexists; split; [reflexivity|]. clear HB. converts_node.
  - apply andb_true_iff in Hwf as [[Hr Ha]%andb_true_iff Hb].
    destruct (IHa Ha) as (a' & -> & Ca); [set_solver|].
    destruct (IHb Hb) as (b' & -> & Cb); [set_solver|].
    binary_cases Hr; try (exfalso; clear -HB; set_solver).
    tags. simpl. eexists; split; [reflexivity|]. clear HB. converts_node.
Qed.

(** A correct conversion followed by a correct conversion of its
    constant-free result. *)
Lemma converts_trans B1 B2 f g h :
  converts B1 f g → has_constant g = false → converts B2 g h →
  converts B2 f h.
Proof.
  intros [W1 O1 V1 N1 E1] Hg [W2 O2 V2 N2 E2].
  specialize (N2 Hg). split; [done | done | set_solver | | ].
  - intros Hf. specialize (N1 Hf). set_solver.
  - intros m Hm. rewrite E2 by auto. auto.
Qed.

Lemma to_nand_converts f :
  wf f = true → ∃ h, to_nand f = Ok h ∧ converts {[ "-&" ]} f h.
Proof.
  intros Hwf. unfold to_nand.
  destruct (to_not_and_converts f Hwf) as (g & -> & Cg). simpl.
  destruct (convert_converts g) as (h & -> & Ch);
    [apply Cg | apply Cg |].
  exists h. split; [done|]. eapply converts_trans; [exact Cg | | exact Ch].
  eapply legal_no_constant; [apply Cg | apply Cg | set_solver | set_solver].
Qed.

Lemma to_implies_false_converts f :
  wf f = true → ∃ h, to_implies_false f = Ok h ∧ converts {[ "->"; "F" ]} f h.
Proof.
  intros Hwf. unfold to_implies_false.
  destruct (to_implies_not_converts f Hwf) as (g & -> & Cg). simpl.
  destruct (eliminate_converts g) as (h & -> & Ch);
    [apply Cg | apply Cg |].
  exists h. split; [done|]. eapply converts_trans; [exact Cg | | exact Ch].
  eapply legal_no_constant; [apply Cg | apply Cg | set_solver | set_solver].
Qed.

(** Every entry point converts every formula of the grammar correctly into
    its basis. *)
Lemma run_converts c f :
  wf f = true → ∃ g, run c f = Ok g ∧ converts (basis c) f g.
Proof.
  destruct c; simpl;
    auto using to_not_and_or_converts, to_not_and_converts, to_nand_converts,
      to_implies_not_converts, to_implies_false_converts.
Qed.

(** A formula of the grammar has a value in every model that covers its
    variables. *)
Lemma evaluate_total f (m : gmap string bool) :
  wf f = true → variables f ⊆ dom m → is_Some (evaluate f m).
Proof.
  induction f as [r | r a IHa | r a IHa b IHb]; simpl; intros Hwf Hm.
  - destruct (is_variable r) eqn:Hv.
    + apply elem_of_dom. set_solver.
    + apply is_constant_cases in Hwf as [-> | ->]; simpl; eauto.
  - apply andb_true_iff in Hwf as [-> Ha].
    destruct (IHa Ha Hm) as [x ->]. simpl. eauto.
  - apply andb_true_iff in Hwf as [[Hr Ha]%andb_true_iff Hb].
    destruct (IHa Ha) as [x ->]; [set_solver|].
    destruct (IHb Hb) as [y ->]; [set_solver|].
    binary_cases Hr; simpl; eauto.
Qed.

(** The single-pass converters rebuild a formula over their own basis node
    by node. *)
Lemma to_not_and_or_legal f :
  wf f = true → operators f ⊆ {[ "~"; "&"; "|" ]} → to_not_and_or f = Ok f.
Proof.
  induction f as [r | r a IHa | r a IHa b IHb]; simpl; intros Hwf HB.
  - destruct (is_variable r) eqn:Hv; [done|].
    exfalso. apply is_constant_cases in Hwf as [-> | ->]; set_solver.
  - apply andb_true_iff in Hwf as [->%is_unary_eq Ha].
    rewrite IHa; [| done | set_solver]. by tags.
  - apply andb_true_iff in Hwf as [[Hr Ha]%andb_true_iff Hb].
    rewrite IHa, IHb; [| done | set_solver | done | set_solver].
    binary_cases Hr; try (exfalso; clear -HB; set_solver); by tags.
Qed.

Lemma to_not_and_legal f :
  wf f = true → operators f ⊆ {[ "~"; "&" ]} → to_not_and f = Ok f.
Proof.
  induction f as [r | r a IHa | r a IHa b IHb]; simpl; intros Hwf HB.
  - rewrite to_not_and_equation_1. destruct (is_variable r) eqn:Hv; [done|].
    exfalso. apply is_constant_cases in Hwf as [-> | ->]; set_solver.
  - apply andb_true_iff in Hwf as [->%is_unary_eq Ha].
    rewrite to_not_and_equation_2, IHa; [| done | set_solver]. by tags.
  - apply andb_true_iff in Hwf as [[Hr Ha]%andb_true_iff Hb].
    rewrite to_not_and_equation_3, IHa, IHb;
      [| done | set_solver | done | set_solver].
    binary_cases Hr; try (exfalso; clear -HB; set_solver); by tags.
Qed.

Lemma to_implies_not_legal f :
  wf f = true → operators f ⊆ {[ "->"; "~" ]} → to_implies_not f = Ok f.
Proof.
  induction f as [r | r a IHa | r a IHa b IHb]; simpl; intros Hwf HB.
  - destruct (is_variable r) eqn:Hv; [done|].
    exfalso. apply is_constant_cases in Hwf as [-> | ->]; set_solver.
  - apply andb_true_iff in Hwf as [->%is_unary_eq Ha].
    rewrite IHa; [| done | set_solver]. by tags.
  - apply andb_true_iff in Hwf as [[Hr Ha]%andb_true_iff Hb].
    rewrite IHa, IHb; [| done | set_solver | done | set_solver].
    binary_cases Hr; try (exfalso; clear -HB; set_solver); by tags.
Qed.

Lemma single_pass_legal c f :
  single_pass c = true → wf f = true → operators f ⊆ basis c →
  run c f = Ok f.
Proof.
  destruct c; simpl; try discriminate; intros _;
    auto using to_not_and_or_legal, to_not_and_legal, to_implies_not_legal.
Qed.

(** ** The properties of the specification *)

(** C1. Semantic equivalence: for each of the five converters, every formula
    of the grammar is converted, and in every model that gives a value to the
    variables of the formula and to the helper variable [p] (which may occur
    in the formula itself) the result has the truth value of the formula. *)
Theorem converters_preserve_truth (c : converter) (f : Formula)
    (m : gmap string bool) :
  wf f = true → variables f ⊆ dom m → "p" ∈ dom m →
  ∃ g v, run c f = Ok g ∧ evaluate f m = Some v ∧ evaluate g m = Some v.
Proof.
  intros Hwf Hm Hp.
  destruct (run_converts c f Hwf) as (g & Hg & Cg).
  destruct (evaluate_total f m Hwf Hm) as [v Hv].
  exists g, v. split; [done|]. split; [done|].
  rewrite (converts_eval _ _ _ Cg m), Hv; [done|].
  right. by apply elem_of_dom.
Qed.

(** C2. Basis closure: the tags occurring in the result of a converter
    are within its basis: [~ & |] for [to_not_and_or], [~ &] for
    [to_not_and], [-&] for [to_nand], [-> ~] for [to_implies_not], [->] and
    the constant [F] for [to_implies_false]; the result is a formula of the
    grammar. *)
Theorem converters_basis_closure (c : converter) (f : Formula) :
  wf f = true →
  ∃ g, run c f = Ok g ∧ wf g = true ∧ operators g ⊆ basis c.
Proof.
  intros Hwf. destruct (run_converts c f Hwf) as (g & Hg & Cg).
  exists g. split; [done|]. split; apply Cg.
Qed.

(** C3. The defining equations of [to_not_and_or] (section 4.1): a variable
    is returned unchanged, [T] becomes [p|~p], [F] becomes [p&~p], [~X]
    becomes the negation of the converted [X], and with [first] and [second]
    the converted operands each binary operator becomes its encoding over
    [~ & |]. *)
Theorem to_not_and_or_equations :
  (∀ x, is_variable x = true → to_not_and_or (Leaf x) = Ok (Leaf x)) ∧
  to_not_and_or (Leaf "T")
    = Ok (Binary "|" (Leaf "p") (Unary "~" (Leaf "p"))) ∧
  to_not_and_or (Leaf "F")
    = Ok (Binary "&" (Leaf "p") (Unary "~" (Leaf "p"))) ∧
  (∀ X X', to_not_and_or X = Ok X' →
     to_not_and_or (Unary "~" X) = Ok (Unary "~" X')) ∧
  (∀ a b first second,
     to_not_and_or a = Ok first → to_not_and_or b = Ok second →
     to_not_and_or (Binary "&" a b) = Ok (Binary "&" first second) ∧
     to_not_and_or (Binary "|" a b) = Ok (Binary "|" first second) ∧
     to_not_and_or (Binary "->" a b)
       = Ok (Binary "|" (Unary "~" first) second) ∧
     to_not_and_or (Binary "+" a b)
       = Ok (Binary "|" (Binary "&" first (Unary "~" second))
                        (Binary "&" (Unary "~" first) second)) ∧
     to_not_and_or (Binary "<->" a b)
       = Ok (Binary "|" (Binary "&" first second)
                        (Binary "&" (Unary "~" first) (Unary "~" second))) ∧
     to_not_and_or (Binary "-&" a b)
       = Ok (Unary "~" (Binary "&" first second)) ∧
     to_not_and_or (Binary "-|" a b)
       = Ok (Unary "~" (Binary "|" first second))).
Proof.
  split; [by intros x Hx; simpl; rewrite Hx|].
  split; [by simpl; tags|]. split; [by simpl; tags|].
  split; [by intros X X' HX; simpl; tags; rewrite HX|].
  intros a b first second Ha Hb. simpl. rewrite Ha, Hb. tags. simpl.
  repeat split.
Qed.

(** C4. The defining equations of [to_implies_not] (section 4.4): a variable
    is returned unchanged, [T] becomes [p->p], [F] becomes [~(p->p)], [~X]
    becomes the negation of the converted [X], [->] is kept, and the other
    binary operators become their encodings over [->] and [~]; the encoding
    of [<->] is the negation of the encoding of [+]. *)
Theorem to_implies_not_equations :
  (∀ x, is_variable x = true → to_implies_not (Leaf x) = Ok (Leaf x)) ∧
  to_implies_not (Leaf "T") = Ok (imp (Leaf "p") (Leaf "p")) ∧
  to_implies_not (Leaf "F") = Ok (neg (imp (Leaf "p") (Leaf "p"))) ∧
  (∀ X X', to_implies_not X = Ok X' →
     to_implies_not (Unary "~" X) = Ok (neg X')) ∧
  (∀ a b first second,
     to_implies_not a = Ok first → to_implies_not b = Ok second →
     to_implies_not (Binary "->" a b) = Ok (imp first second) ∧
     to_implies_not (Binary "|" a b) = Ok (imp (neg first) second) ∧
     to_implies_not (Binary "&" a b) = Ok (neg (imp first (neg second))) ∧
     to_implies_not (Binary "+" a b)
       = Ok (imp (imp first second) (neg (imp second first))) ∧
     to_implies_not (Binary "<->" a b)
       = Ok (neg (imp (imp first second) (neg (imp second first)))) ∧
     to_implies_not (Binary "-&" a b) = Ok (imp first (neg second)) ∧
     to_implies_not (Binary "-|" a b) = Ok (neg (imp (neg first) second))).
Proof.
  split; [by intros x Hx; simpl; rewrite Hx|].
  split; [by simpl; tags|]. split; [by simpl; tags|].
  split; [by intros X X' HX; simpl; tags; rewrite HX|].
  intros a b first second Ha Hb. simpl. rewrite Ha, Hb. tags. simpl.
  repeat split.
Qed.

(** C5. The strategy of [to_not_and] (section 4.2): [F] becomes [p&~p] and
    [T] its negation; [|], [->] and [+] are written over [~] and [&]
    directly; [<->] converts the [+] formula built from the original
    operands and negates the result; NAND is [~(first & second)], NOR is
    [~first & ~second]; and the result of converting a formula of the
    grammar has no [|] node. *)
Theorem to_not_and_strategy :
  to_not_and (Leaf "F")
    = Ok (Binary "&" (Leaf "p") (Unary "~" (Leaf "p"))) ∧
  to_not_and (Leaf "T")
    = Ok (Unary "~" (Binary "&" (Leaf "p") (Unary "~" (Leaf "p")))) ∧
  (∀ a b first second,
     to_not_and a = Ok first → to_not_and b = Ok second →
     to_not_and (Binary "|" a b)
       = Ok (Unary "~" (Binary "&" (Unary "~" first) (Unary "~" second))) ∧
     to_not_and (Binary "->" a b)
       = Ok (Unary "~" (Binary "&" first (Unary "~" second))) ∧
     to_not_and (Binary "+" a b)
       = Ok (Unary "~"
               (Binary "&"
                  (Unary "~" (Binary "&" first (Unary "~" second)))
                  (Unary "~" (Binary "&" (Unary "~" first) second)))) ∧
     (∃ xor, to_not_and (Binary "+" a b) = Ok xor ∧
             to_not_and (Binary "<->" a b) = Ok (Unary "~" xor)) ∧
     to_not_and (Binary "-&" a b)
       = Ok (Unary "~" (Binary "&" first second)) ∧
     to_not_and (Binary "-|" a b)
       = Ok (Binary "&" (Unary "~" first) (Unary "~" second))) ∧
  (∀ f, wf f = true → ∃ g, to_not_and f = Ok g ∧ "|" ∉ operators g).
Proof.
  split; [by rewrite to_not_and_equation_1; tags|].
  split; [by rewrite to_not_and_equation_1; tags|].
  split.
  - intros a b first second Ha Hb.
    assert (Hxor : to_not_and (Binary "+" a b)
      = Ok (Unary "~"
              (Binary "&"
                 (Unary "~" (Binary "&" first (Unary "~" second)))
                 (Unary "~" (Binary "&" (Unary "~" first) second)))))
      by (by rewrite to_not_and_equation_3, Ha, Hb; tags).
    repeat split;
      try (by rewrite to_not_and_equation_3, Ha, Hb; tags).
    eexists. split; [exact Hxor|].
    rewrite to_not_and_equation_3, Ha, Hb. tags. simpl. by rewrite Hxor.
  - intros f Hwf. destruct (to_not_and_converts f Hwf) as (g & Hg & Cg).
    exists g. split; [done|].
    pose proof (converts_basis _ _ _ Cg) as HB. clear -HB. set_solver.
Qed.

(** C6. Chained converters: the result of [to_not_and], passed to [to_nand],
    gives a formula whose only tag is [-&], with the truth value of the
    original formula in every model that covers its variables and [p]; the
    same for the result of [to_implies_not] passed to [to_implies_false],
    whose tags are [->] and the constant [F]. *)
Theorem chained_converters (f : Formula) :
  wf f = true →
  (∃ g h, to_not_and f = Ok g ∧ to_nand g = Ok h ∧
     operators h ⊆ {[ "-&" ]} ∧
     ∀ m : gmap string bool, variables f ⊆ dom m → "p" ∈ dom m →
       ∃ v, evaluate f m = Some v ∧ evaluate h m = Some v) ∧
  (∃ g h, to_implies_not f = Ok g ∧ to_implies_false g = Ok h ∧
     operators h ⊆ {[ "->"; "F" ]} ∧
     ∀ m : gmap string bool, variables f ⊆ dom m → "p" ∈ dom m →
       ∃ v, evaluate f m = Some v ∧ evaluate h m = Some v).
Proof.
  intros Hwf. split.
  - destruct (to_not_and_converts f Hwf) as (g & Hg & Cg).
    destruct (to_nand_converts g (converts_wf _ _ _ Cg)) as (h & Hh & Ch).
    exists g, h. repeat split; [done | done | apply Ch |].
    intros m Hm Hp. destruct (evaluate_total f m Hwf Hm) as [v Hv].
    apply elem_of_dom in Hp. exists v. split; [done|].
    by rewrite (converts_eval _ _ _ Ch m), (converts_eval _ _ _ Cg m), Hv
      by auto.
  - destruct (to_implies_not_converts f Hwf) as (g & Hg & Cg).
    destruct (to_implies_false_converts g (converts_wf _ _ _ Cg))
      as (h & Hh & Ch).
    exists g, h. repeat split; [done | done | apply Ch |].
    intros m Hm Hp. destruct (evaluate_total f m Hwf Hm) as [v Hv].
    apply elem_of_dom in Hp. exists v. split; [done|].
    by rewrite (converts_eval _ _ _ Ch m), (converts_eval _ _ _ Cg m), Hv
      by auto.
Qed.

(** C7. On a formula of the grammar no converter raises: each of the five
    returns a formula, so the [Unknown operator] error is never the
    outcome. *)
Theorem converters_never_raise (c : converter) (f : Formula) :
  wf f = true →
  (∃ g, run c f = Ok g) ∧ ∀ msg, run c f ≠ Err (ValueError msg).
Proof.
  intros Hwf. destruct (run_converts c f Hwf) as (g & Hg & _).
  split; [by exists g|]. intros msg. by rewrite Hg.
Qed.

(** C8. Input that is already legal: a formula of the grammar over the basis
    of a converter and without constants is converted to a formula with the
    same truth value in every model that covers its variables; and each of
    the five converters returns a single variable as it is. *)
Theorem legal_input_equivalent (c : converter) :
  (∀ f (m : gmap string bool),
     wf f = true → operators f ⊆ basis c → has_constant f = false →
     variables f ⊆ dom m →
     ∃ g v, run c f = Ok g ∧ evaluate f m = Some v ∧ evaluate g m = Some v) ∧
  (∀ x, is_variable x = true → run c (Leaf x) = Ok (Leaf x)).
Proof.
  split.
  - intros f m Hwf _ Hc Hm.
    destruct (run_converts c f Hwf) as (g & Hg & Cg).
    destruct (evaluate_total f m Hwf Hm) as [v Hv].
    exists g, v. split; [done|]. split; [done|].
    by rewrite (converts_eval _ _ _ Cg m), Hv by auto.
  - intros x Hx. destruct c; simpl; unfold to_nand, to_implies_false;
      rewrite ?to_not_and_equation_1; simpl; rewrite ?Hx; simpl;
      by rewrite ?Hx.
Qed.

(** C9. The single-pass converters [to_not_and_or], [to_not_and] and
    [to_implies_not] return a formula of the grammar over their own basis
    (hence without constants) as the same tree, and so converting twice is
    converting once. *)
Theorem single_pass_identity (c : converter) :
  single_pass c = true →
  (∀ f, wf f = true → operators f ⊆ basis c → run c f = Ok f) ∧
  (∀ g, wf g = true → ∃ h, run c g = Ok h ∧ run c h = Ok h).
Proof.
  intros Hc. split.
  - intros f. by apply single_pass_legal.
  - intros g Hwf. destruct (run_converts c g Hwf) as (h & Hh & Ch).
    exists h. split; [done|]. apply single_pass_legal; [done | apply Ch ..].
Qed.

(** C10. Variables: every variable of the result of a converter is a
    variable of the input or the helper [p], and when the input has no
    constant the result has no variable beyond those of the input. *)
Theorem converters_variables (c : converter) (f : Formula) :
  wf f = true →
  ∃ g, run c f = Ok g ∧
       variables g ⊆ variables f ∪ {[ "p" ]} ∧
       (has_constant f = false → variables g ⊆ variables f).
Proof.
  intros Hwf. destruct (run_converts c f Hwf) as (g & Hg & Cg).
  exists g. split; [done|]. split; apply Cg.
Qed.

(** ** Further properties of the converters *)

(** *** Height *)

Lemma to_not_and_or_height f :
  wf f = true →
  ∃ g, to_not_and_or f = Ok g ∧ (height f ≤ height g ≤ 3 * height f)%nat.
Proof.
  induction f as [r | r a IHa | r a IHa b IHb]; simpl; intros Hwf.
  - destruct (is_variable r) eqn:Hv.
    + eexists; split; [reflexivity|]. simpl. lia.
    + apply is_constant_cases in Hwf as [-> | ->]; simpl;
        (eexists; split; [reflexivity|]); simpl; lia.
  - apply andb_true_iff in Hwf as [->%is_unary_eq Ha].
    destruct (IHa Ha) as (a' & -> & Ba). tags. simpl.
    eexists; split; [reflexivity|]. simpl. lia.
  - apply andb_true_iff in Hwf as [[Hr Ha]%andb_true_iff Hb].
    destruct (IHa Ha) as (a' & -> & Ba), (IHb Hb) as (b' & -> & Bb).
    binary_cases Hr; tags; simpl;
      (eexists; split; [reflexivity|]); simpl; lia.
Qed.

Lemma to_not_and_height f :
  wf f = true →
  ∃ g, to_not_and f = Ok g ∧ (height f ≤ height g ≤ 6 * height f)%nat.
Proof.
  induction f as [r | r a IHa | r a IHa b IHb]; simpl; intros Hwf.
  - rewrite to_not_and_equation_1. destruct (is_variable r) eqn:Hv.
    + eexists; split; [reflexivity|]. simpl. lia.
    + apply is_constant_cases in Hwf as [-> | ->]; simpl;
        (eexists; split; [reflexivity|]); simpl; lia.
  - apply andb_true_iff in Hwf as [->%is_unary_eq Ha].
    destruct (IHa Ha) as (a' & Ea & Ba).
    rewrite to_not_and_equation_2, Ea. tags. simpl.
    eexists; split; [reflexivity|]. simpl. lia.
  - apply andb_true_iff in Hwf as [[Hr Ha]%andb_true_iff Hb].
    destruct (IHa Ha) as (a' & Ea & Ba), (IHb Hb) as (b' & Eb & Bb).
    binary_cases Hr;
      repeat (rewrite to_not_and_equation_3, Ea, Eb; tags; simpl);
      (eexists; split; [reflexivity|]); simpl; lia.
Qed.

Lemma to_implies_not_height f :
  wf f = true →
  ∃ g, to_implies_not f = Ok g ∧ (height f ≤ height g ≤ 4 * height f)%nat.
Proof.
  induction f as [r | r a IHa | r a IHa b IHb]; simpl; intros Hwf.
  - destruct (is_variable r) eqn:Hv.
    + eexists; split; [reflexivity|]. simpl. lia.
    + apply is_constant_cases in Hwf as [-> | ->]; simpl;
        (eexists; split; [reflexivity|]); simpl; lia.
  - apply andb_true_iff in Hwf as [->%is_unary_eq Ha].
    destruct (IHa Ha) as (a' & -> & Ba). tags. simpl.
    eexists; split; [reflexivity|]. simpl. lia.
  - apply andb_true_iff in Hwf as [[Hr Ha]%andb_true_iff Hb].
    destruct (IHa Ha) as (a' & -> & Ba), (IHb Hb) as (b' & -> & Bb).
    binary_cases Hr; tags; simpl;
      (eexists; split; [reflexivity|]); simpl; lia.
Qed.

Lemma convert_height g :
  wf g = true → operators g ⊆ {[ "~"; "&" ]} →
  ∃ h, convert g = Ok h ∧ (height g ≤ height h ≤ 2 * height g)%nat.
Proof.
  induction g as [r | r a IHa | r a IHa b IHb]; simpl; intros Hwf HB.
  - destruct (is_variable r) eqn:Hv.
    + eexists; split; [reflexivity|]. simpl. lia.
    + exfalso. apply is_constant_cases in Hwf as [-> | ->]; set_solver.
  - apply andb_true_iff in Hwf as [->%is_unary_eq Ha].
    destruct (IHa Ha) as (a' & -> & Ba); [set_solver|]. tags. simpl.
    eexists; split; [reflexivity|]. simpl. lia.
  - apply andb_true_iff in Hwf as [[Hr Ha]%andb_true_iff Hb].
    destruct (IHa Ha) as (a' & -> & Ba); [set_solver|].
    destruct (IHb Hb) as (b' & -> & Bb); [set_solver|].
    binary_cases Hr; try (exfalso; clear -HB; set_solver).
    tags. simpl. eexists; split; [reflexivity|]. simpl. lia.
Qed.

Lemma eliminate_height g :
  wf g = true → operators g ⊆ {[ "->"; "~" ]} →
  ∃ h, eliminate g = Ok h ∧ height h = height g.
Proof.
  induction g as [r | r a IHa | r a IHa b IHb]; simpl; intros Hwf HB.
  - destruct (is_variable r) eqn:Hv.
    + eexists; split; [reflexivity|]. reflexivity.
    + exfalso. apply is_constant_cases in Hwf as [-> | ->]; set_solver.
  - apply andb_true_iff in Hwf as [->%is_unary_eq Ha].
    destruct (IHa Ha) as (a' & -> & Ba); [set_solver|]. tags. simpl.
    eexists; split; [reflexivity|]. simpl. destruct a'; simpl in *; lia.
  - apply andb_true_iff in Hwf as [[Hr Ha]%andb_true_iff Hb].
    destruct (IHa Ha) as (a' & -> & Ba); [set_solver|].
    destruct (IHb Hb) as (b' & -> & Bb); [set_solver|].
    binary_cases Hr; try (exfalso; clear -HB; set_solver).
    tags. simpl. eexists; split; [reflexivity|]. simpl. lia.
Qed.

Lemma to_nand_height f :
  wf f = true →
  ∃ h, to_nand f = Ok h ∧ (height f ≤ height h ≤ 12 * height f)%nat.
Proof.
  intros Hwf. unfold to_nand.
  destruct (to_not_and_converts f Hwf) as (g & Hg & Cg).
  destruct (to_not_and_height f Hwf) as (g' & Hg' & Bg).
  rewrite Hg in Hg'. injection Hg' as <-. rewrite Hg. simpl.
  destruct (convert_height g) as (h & -> & Bh); [apply Cg ..|].
  exists h. split; [done|]. lia.
Qed.

Lemma to_implies_false_height f :
  wf f = true →
  ∃ h, to_implies_false f = Ok h ∧ (height f ≤ height h ≤ 4 * height f)%nat.
Proof.
  intros Hwf. unfold to_implies_false.
  destruct (to_implies_not_converts f Hwf) as (g & Hg & Cg).
  destruct (to_implies_not_height f Hwf) as (g' & Hg' & Bg).
  rewrite Hg in Hg'. injection Hg' as <-. rewrite Hg. simpl.
  destruct (eliminate_height g) as (h & -> & Bh); [apply Cg ..|].
  exists h. split; [done|]. lia.
Qed.

(** X2. The result of a converter is at least as high as its input and at
    most [growth] times as high: 3 times for [to_not_and_or], 6 for
    [to_not_and], 12 for [to_nand], 4 for [to_implies_not] and for
    [to_implies_false]. *)
Theorem converters_height (c : converter) (f : Formula) :
  wf f = true →
  ∃ g, run c f = Ok g ∧ (height f ≤ height g ≤ growth c * height f)%nat.
Proof.
  destruct c; simpl;
    auto using to_not_and_or_height, to_not_and_height, to_nand_height,
      to_implies_not_height, to_implies_false_height.
Qed.

(** *** Variables, exactly *)

(** The variables of a formula, and [p] when a constant occurs in it. *)
Ltac variables_node :=
  simpl; tags; simpl;
  repeat match goal with
  | H : variables ?g = _ |- context [variables ?g] => rewrite H
  end;
  repeat match goal with
  | |- context [has_constant ?a] => destruct (has_constant a)
  end; simpl; set_solver.

Lemma to_not_and_or_variables f :
  wf f = true →
  ∃ g, to_not_and_or f = Ok g ∧
       variables g = variables f ∪ (if has_constant f then {[ "p" ]} else ∅).
Proof.
  induction f as [r | r a IHa | r a IHa b IHb]; simpl; intros Hwf.
  - destruct (is_variable r) eqn:Hv.
    + eexists; split; [reflexivity|]. simpl. rewrite Hv. set_solver.
    + apply is_constant_cases in Hwf as [-> | ->]; simpl;
        (eexists; split; [reflexivity|]); variables_node.
  - apply andb_true_iff in Hwf as [->%is_unary_eq Ha].
    destruct (IHa Ha) as (a' & -> & Va). tags. simpl.
    eexists; split; [reflexivity|]. variables_node.
  - apply andb_true_iff in Hwf as [[Hr Ha]%andb_true_iff Hb].
    destruct (IHa Ha) as (a' & -> & Va), (IHb Hb) as (b' & -> & Vb).
    binary_cases Hr; tags; simpl;
      (eexists; split; [reflexivity|]); variables_node.
Qed.

Lemma to_not_and_variables f :
  wf f = true →
  ∃ g, to_not_and f = Ok g ∧
       variables g = variables f ∪ (if has_constant f then {[ "p" ]} else ∅).
Proof.
  induction f as [r | r a IHa | r a IHa b IHb]; simpl; intros Hwf.
  - rewrite to_not_and_equation_1. destruct (is_variable r) eqn:Hv.
    + eexists; split; [reflexivity|]. simpl. rewrite Hv. set_solver.
    + apply is_constant_cases in Hwf as [-> | ->]; simpl;
        (eexists; split; [reflexivity|]); variables_node.
  - apply andb_true_iff in Hwf as [->%is_unary_eq Ha].
    destruct (IHa Ha) as (a' & Ea & Va).
    rewrite to_not_and_equation_2, Ea. tags. simpl.
    eexists; split; [reflexivity|]. variables_node.
  - apply andb_true_iff in Hwf as [[Hr Ha]%andb_true_iff Hb].
    destruct (IHa Ha) as (a' & Ea & Va), (IHb Hb) as (b' & Eb & Vb).
    binary_cases Hr;
      repeat (rewrite to_not_and_equation_3, Ea, Eb; tags; simpl);
      (eexists; split; [reflexivity|]); variables_node.
Qed.

Lemma to_implies_not_variables f :
  wf f = true →
  ∃ g, to_implies_not f = Ok g ∧
       variables g = variables f ∪ (if has_constant f then {[ "p" ]} else ∅).
Proof.
  induction f as [r | r a IHa | r a IHa b IHb]; simpl; intros Hwf.
  - destruct (is_variable r) eqn:Hv.
    + eexists; split; [reflexivity|]. simpl. rewrite Hv. set_solver.
    + apply is_constant_cases in Hwf as [-> | ->]; simpl;
        (eexists; split; [reflexivity|]); unfold imp, neg; variables_node.
  - apply andb_true_iff in Hwf as [->%is_unary_eq Ha].
    destruct (IHa Ha) as (a' & -> & Va). tags. simpl.
    eexists; split; [reflexivity|]. unfold imp, neg. variables_node.
  - apply andb_true_iff in Hwf as [[Hr Ha]%andb_true_iff Hb].
    destruct (IHa Ha) as (a' & -> & Va), (IHb Hb) as (b' & -> & Vb).
    binary_cases Hr; tags; simpl;
      (eexists; split; [reflexivity|]); unfold imp, neg; variables_node.
Qed.

Lemma convert_variables g :
  wf g = true → operators g ⊆ {[ "~"; "&" ]} →
  ∃ h, convert g = Ok h ∧ variables h = variables g.
Proof.
  induction g as [r | r a IHa | r a IHa b IHb]; simpl; intros Hwf HB.
  - destruct (is_variable r) eqn:Hv.
    + eexists; split; [reflexivity|]. simpl. by rewrite Hv.
    + exfalso. apply is_constant_cases in Hwf as [-> | ->]; set_solver.
  - apply andb_true_iff in Hwf as [->%is_unary_eq Ha].
    destruct (IHa Ha) as (a' & -> & Va); [set_solver|]. tags. simpl.
    eexists; split; [reflexivity|]. simpl. rewrite Va. set_solver.
  - apply andb_true_iff in Hwf as [[Hr Ha]%andb_true_iff Hb].
    destruct (IHa Ha) as (a' & -> & Va); [set_solver|].
    destruct (IHb Hb) as (b' & -> & Vb); [set_solver|].
    binary_cases Hr; try (exfalso; clear -HB; set_solver).
    tags. simpl. eexists; split; [reflexivity|]. simpl.
    rewrite Va, Vb. set_solver.
Qed.

Lemma eliminate_variables g :
  wf g = true → operators g ⊆ {[ "->"; "~" ]} →
  ∃ h, eliminate g = Ok h ∧ variables h = variables g.
Proof.
  induction g as [r | r a IHa | r a IHa b IHb]; simpl; intros Hwf HB.
  - destruct (is_variable r) eqn:Hv.
    + eexists; split; [reflexivity|]. simpl. by rewrite Hv.
    + exfalso. apply is_constant_cases in Hwf as [-> | ->]; set_solver.
  - apply andb_true_iff in Hwf as [->%is_unary_eq Ha].
    destruct (IHa Ha) as (a' & -> & Va); [set_solver|]. tags. simpl.
    eexists; split; [reflexivity|]. simpl. tags. rewrite Va. set_solver.
  - apply andb_true_iff in Hwf as [[Hr Ha]%andb_true_iff Hb].
    destruct (IHa Ha) as (a' & -> & Va); [set_solver|].
    destruct (IHb Hb) as (b' & -> & Vb); [set_solver|].
    binary_cases Hr; try (exfalso; clear -HB; set_solver).
    tags. simpl. eexists; split; [reflexivity|]. simpl.
    by rewrite Va, Vb.
Qed.

(** X1. The variables of the result of a converter are exactly those of the
    input, together with the helper [p] exactly when a constant occurs in the
    input: no variable of the input is dropped. *)
Theorem converters_variables_exact (c : converter) (f : Formula) :
  wf f = true →
  ∃ g, run c f = Ok g ∧
       variables g = variables f ∪ (if has_constant f then {[ "p" ]} else ∅).
Proof.
  intros Hwf. destruct c; simpl.
  - by apply to_not_and_or_variables.
  - by apply to_not_and_variables.
  - unfold to_nand.
    destruct (to_not_and_converts f Hwf) as (g & Hg & Cg).
    destruct (to_not_and_variables f Hwf) as (g' & Hg' & Vg).
    rewrite Hg in Hg'. injection Hg' as <-. rewrite Hg. simpl.
    destruct (convert_variables g) as (h & -> & Vh); [apply Cg ..|].
    exists h. split; [done|]. by rewrite Vh.
  - by apply to_implies_not_variables.
  - unfold to_implies_false.
    destruct (to_implies_not_converts f Hwf) as (g & Hg & Cg).
    destruct (to_implies_not_variables f Hwf) as (g' & Hg' & Vg).
    rewrite Hg in Hg'. injection Hg' as <-. rewrite Hg. simpl.
    destruct (eliminate_variables g) as (h & -> & Vh); [apply Cg ..|].
    exists h. split; [done|]. by rewrite Vh.
Qed.

(** *** The unknown-operator error *)

Lemma to_not_and_or_value_error f msg :
  to_not_and_or f = Err (ValueError msg) →
  ∃ r, msg = "Unknown operator: " ++ r ∧ r ∈ operators f ∧
       is_binary r = false.
Proof using Type.
  clear is_variable_p is_variable_reserved.
  revert msg. induction f as [r | r a IHa | r a IHa b IHb]; intros msg; simpl.
  - repeat case_match; discriminate.
  - destruct (is_variable r); [discriminate|].
    destruct (is_constant r); [by case_decide|].
    destruct (to_not_and_or a) as [a'|e]; simpl;
      destruct (is_unary r); simpl; try discriminate;
      intros [= ->]; destruct (IHa _ eq_refl) as (r' & -> & Hin & Hr');
      exists r'; (split; [done|]); (split; [set_solver|done]).
  - destruct (is_variable r); [discriminate|].
    destruct (is_constant r); [by case_decide|].
    destruct (to_not_and_or a) as [a'|e]; simpl.
    2: { destruct (is_unary r); intros [= ->];
         destruct (IHa _ eq_refl) as (r' & -> & Hin & Hr');
         exists r'; (split; [done|]); (split; [set_solver|done]). }
    destruct (is_unary r); [discriminate|].
    destruct (to_not_and_or b) as [b'|e]; simpl.
    2: { intros [= ->]; destruct (IHb _ eq_refl) as (r' & -> & Hin & Hr');
         exists r'; (split; [done|]); (split; [set_solver|done]). }
    repeat case_decide; try discriminate. intros [= <-].
    exists r. split; [done|]. split; [set_solver|].
    apply bool_decide_eq_false. unfold binary_operators. set_solver.
Qed.

Lemma to_not_and_value_error f msg :
  to_not_and f = Err (ValueError msg) →
  ∃ r, msg = "Unknown operator: " ++ r ∧ r ∈ operators f ∧
       is_binary r = false.
Proof using Type.
  clear is_variable_p is_variable_reserved.
  revert msg. induction f as [r | r a IHa | r a IHa b IHb]; intros msg.
  - rewrite to_not_and_equation_1. repeat case_match; discriminate.
  - rewrite to_not_and_equation_2. simpl.
    destruct (is_variable r); [discriminate|].
    destruct (is_constant r); [by case_decide|].
    destruct (to_not_and a) as [a'|e]; simpl;
      destruct (is_unary r); simpl; try discriminate;
      intros [= ->]; destruct (IHa _ eq_refl) as (r' & -> & Hin & Hr');
      exists r'; (split; [done|]); (split; [set_solver|done]).
  - rewrite to_not_and_equation_3. simpl.
    destruct (is_variable r); [discriminate|].
    destruct (is_constant r); [by case_decide|].
    destruct (to_not_and a) as [a'|e] eqn:Ea; simpl.
    2: { destruct (is_unary r); intros [= ->];
         destruct (IHa _ eq_refl) as (r' & -> & Hin & Hr');
         exists r'; (split; [done|]); (split; [set_solver|done]). }
    destruct (is_unary r); [discriminate|].
    destruct (to_not_and b) as [b'|e] eqn:Eb; simpl.
    2: { intros [= ->]; destruct (IHb _ eq_refl) as (r' & -> & Hin & Hr');
         exists r'; (split; [done|]); (split; [set_solver|done]). }
    repeat case_decide; try discriminate.
    + rewrite to_not_and_equation_3, Ea, Eb. simpl.
      destruct (is_variable "+"); discriminate.
    + intros [= <-].
      exists r. split; [done|]. split; [set_solver|].
      apply bool_decide_eq_false. unfold binary_operators. set_solver.
Qed.

Lemma to_implies_not_value_error f msg :
  to_implies_not f = Err (ValueError msg) →
  ∃ r, msg = "Unknown operator: " ++ r ∧ r ∈ operators f ∧
       is_binary r = false.
Proof using Type.
  clear is_variable_p is_variable_reserved.
  revert msg. induction f as [r | r a IHa | r a IHa b IHb]; intros msg; simpl.
  - repeat case_match; discriminate.
  - destruct (is_variable r); [discriminate|].
    destruct (is_constant r); [by case_decide|].
    destruct (to_implies_not a) as [a'|e]; simpl;
      destruct (is_unary r); simpl; try discriminate;
      intros [= ->]; destruct (IHa _ eq_refl) as (r' & -> & Hin & Hr');
      exists r'; (split; [done|]); (split; [set_solver|done]).
  - destruct (is_variable r); [discriminate|].
    destruct (is_constant r); [by case_decide|].
    destruct (to_implies_not a) as [a'|e]; simpl.
    2: { destruct (is_unary r); intros [= ->];
         destruct (IHa _ eq_refl) as (r' & -> & Hin & Hr');
         exists r'; (split; [done|]); (split; [set_solver|done]). }
    destruct (is_unary r); [discriminate|].
    destruct (to_implies_not b) as [b'|e]; simpl.
    2: { intros [= ->]; destruct (IHb _ eq_refl) as (r' & -> & Hin & Hr');
         exists r'; (split; [done|]); (split; [set_solver|done]). }
    repeat case_decide; try discriminate. intros [= <-].
    exists r. split; [done|]. split; [set_solver|].
    apply bool_decide_eq_false. unfold binary_operators. set_solver.
Qed.

(** The second passes have no [raise] of their own. *)
Lemma convert_value_error g msg : convert g ≠ Err (ValueError msg).
Proof using Type.
  clear is_variable_p is_variable_reserved.
  induction g as [r | r a IHa | r a IHa b IHb]; simpl.
  - repeat case_match; discriminate.
  - destruct (is_variable r); [discriminate|].
    destruct (convert a) as [a'|e]; simpl; destruct (is_unary r); simpl;
      try discriminate; intros [= ->]; by apply IHa.
  - destruct (is_variable r); [discriminate|].
    destruct (convert a) as [a'|e]; simpl.
    2: { destruct (is_unary r); intros [= ->]; by apply IHa. }
    destruct (is_unary r); [discriminate|].
    destruct (convert b) as [b'|e]; simpl; [discriminate|].
    intros [= ->]; by apply IHb.
Qed.

Lemma eliminate_value_error g msg : eliminate g ≠ Err (ValueError msg).
Proof using Type.
  clear is_variable_p is_variable_reserved.
  induction g as [r | r a IHa | r a IHa b IHb]; simpl.
  - repeat case_match; discriminate.
  - destruct (is_variable r); [discriminate|].
    destruct (eliminate a) as [a'|e]; simpl; destruct (is_unary r); simpl;
      try discriminate; intros [= ->]; by apply IHa.
  - destruct (is_variable r); [discriminate|].
    destruct (eliminate a) as [a'|e]; simpl.
    2: { destruct (is_unary r); intros [= ->]; by apply IHa. }
    destruct (is_unary r); [discriminate|].
    destruct (eliminate b) as [b'|e]; simpl; [discriminate|].
    intros [= ->]; by apply IHb.
Qed.

(** X3. Whatever tree a converter is given, when it raises [ValueError] the
    message is [Unknown operator: ] followed by a tag that occurs in the
    input as the root of a node and is not one of the seven binary
    operators. *)
Theorem value_error_names_operator (c : converter) (f : Formula)
    (msg : string) :
  run c f = Err (ValueError msg) →
  ∃ r, msg = "Unknown operator: " ++ r ∧ r ∈ operators f ∧
       is_binary r = false.
Proof using Type.
  clear is_variable_p is_variable_reserved.
  destruct c; simpl.
  - apply to_not_and_or_value_error.
  - apply to_not_and_value_error.
  - unfold to_nand. destruct (to_not_and f) as [g|e] eqn:Hg; simpl.
    + intros H. by apply convert_value_error in H.
    + intros [= ->]. by apply to_not_and_value_error.
  - apply to_implies_not_value_error.
  - unfold to_implies_false.
    destruct (to_implies_not f) as [g|e] eqn:Hg; simpl.
    + intros H. by apply eliminate_value_error in H.
    + intros [= ->]. by apply to_implies_not_value_error.
Qed.

(** *** The two-stage converters, operator by operator *)

(** X4. The defining equations [to_nand] satisfies, though it is written as
    two passes: with [A] and [B] the results for the operands, each operator
    and constant becomes a tree of [nand_not] and [nand_and]. *)
Theorem to_nand_equations :
  to_nand (Leaf "T")
    = Ok (nand_not (nand_and (Leaf "p") (nand_not (Leaf "p")))) ∧
  to_nand (Leaf "F") = Ok (nand_and (Leaf "p") (nand_not (Leaf "p"))) ∧
  (∀ X X', to_nand X = Ok X' → to_nand (Unary "~" X) = Ok (nand_not X')) ∧
  (∀ a b A B, to_nand a = Ok A → to_nand b = Ok B →
     to_nand (Binary "&" a b) = Ok (nand_and A B) ∧
     to_nand (Binary "|" a b)
       = Ok (nand_not (nand_and (nand_not A) (nand_not B))) ∧
     to_nand (Binary "->" a b) = Ok (nand_not (nand_and A (nand_not B))) ∧
     to_nand (Binary "+" a b)
       = Ok (nand_not (nand_and (nand_not (nand_and A (nand_not B)))
                                (nand_not (nand_and (nand_not A) B)))) ∧
     to_nand (Binary "<->" a b)
       = Ok (nand_not
               (nand_not (nand_and (nand_not (nand_and A (nand_not B)))
                                   (nand_not (nand_and (nand_not A) B))))) ∧
     to_nand (Binary "-&" a b) = Ok (nand_not (nand_and A B)) ∧
     to_nand (Binary "-|" a b) = Ok (nand_and (nand_not A) (nand_not B))).
Proof.
  unfold to_nand.
  split; [by rewrite to_not_and_equation_1; tags; simpl; tags|].
  split; [by rewrite to_not_and_equation_1; tags; simpl; tags|].
  split.
  - intros X X'. rewrite to_not_and_equation_2. tags. simpl.
    destruct (to_not_and X) as [x|e]; simpl; [|discriminate].
    intros HX. tags. simpl. by rewrite HX.
  - intros a b A B.
    destruct (to_not_and a) as [a'|ea] eqn:Ea; simpl; [|discriminate].
    destruct (to_not_and b) as [b'|eb] eqn:Eb; simpl; [|discriminate].
    intros HA HB.
    repeat split;
      repeat (rewrite to_not_and_equation_3, Ea, Eb; tags; simpl);
      repeat (progress (tags; simpl; rewrite ?HA, ?HB; simpl));
      reflexivity.
Qed.

(** X5. The defining equations [to_implies_false] satisfies: with [A] and
    [B] the results for the operands, each operator and constant becomes a
    tree of implications and the constant [F]. *)
Theorem to_implies_false_equations :
  to_implies_false (Leaf "T") = Ok (imp (Leaf "p") (Leaf "p")) ∧
  to_implies_false (Leaf "F")
    = Ok (imp (imp (Leaf "p") (Leaf "p")) (Leaf "F")) ∧
  (∀ X X', to_implies_false X = Ok X' →
     to_implies_false (Unary "~" X) = Ok (imp X' (Leaf "F"))) ∧
  (∀ a b A B, to_implies_false a = Ok A → to_implies_false b = Ok B →
     to_implies_false (Binary "->" a b) = Ok (imp A B) ∧
     to_implies_false (Binary "|" a b) = Ok (imp (imp A (Leaf "F")) B) ∧
     to_implies_false (Binary "&" a b)
       = Ok (imp (imp A (imp B (Leaf "F"))) (Leaf "F")) ∧
     to_implies_false (Binary "+" a b)
       = Ok (imp (imp A B) (imp (imp B A) (Leaf "F"))) ∧
     to_implies_false (Binary "<->" a b)
       = Ok (imp (imp (imp A B) (imp (imp B A) (Leaf "F"))) (Leaf "F")) ∧
     to_implies_false (Binary "-&" a b) = Ok (imp A (imp B (Leaf "F"))) ∧
     to_implies_false (Binary "-|" a b)
       = Ok (imp (imp (imp A (Leaf "F")) B) (Leaf "F"))).
Proof.
  unfold to_implies_false.
  split; [by simpl; tags; simpl; tags|].
  split; [by simpl; tags; simpl; tags|].
  split.
  - intros X X'. simpl. tags. simpl.
    destruct (to_implies_not X) as [x|e]; simpl; [|discriminate].
    intros HX. tags. simpl. by rewrite HX.
  - intros a b A B. simpl.
    destruct (to_implies_not a) as [a'|ea]; simpl; [|discriminate].
    destruct (to_implies_not b) as [b'|eb]; simpl; [|discriminate].
    intros HA HB.
    repeat split;
      repeat (progress (tags; simpl; rewrite ?HA, ?HB; simpl));
      reflexivity.
Qed.

(** *** Formulas the two-stage converters return unchanged *)

Lemma eliminate_implies f :
  wf f = true → operators f ⊆ {[ "->" ]} → eliminate f = Ok f.
Proof.
  induction f as [r | r a IHa | r a IHa b IHb]; simpl; intros Hwf HB.
  - destruct (is_variable r) eqn:Hv; [done|].
    exfalso. apply is_constant_cases in Hwf as [-> | ->]; set_solver.
  - exfalso. apply andb_true_iff in Hwf as [->%is_unary_eq _]. set_solver.
  - apply andb_true_iff in Hwf as [[Hr Ha]%andb_true_iff Hb].
    rewrite IHa, IHb; [| done | set_solver | done | set_solver].
    binary_cases Hr; try (exfalso; clear -HB; set_solver); by tags.
Qed.

(** X6. [to_implies_false] returns a formula built of variables and [->]
    alone as the same tree. *)
Theorem to_implies_false_legal (f : Formula) :
  wf f = true → operators f ⊆ {[ "->" ]} → to_implies_false f = Ok f.
Proof.
  intros Hwf HB. unfold to_implies_false.
  rewrite to_implies_not_legal; [| done | set_solver]. simpl.
  by apply eliminate_implies.
Qed.

Lemma to_nand_binary r a b A B :
  is_binary r = true → to_nand a = Ok A → to_nand b = Ok B →
  ∃ X, to_nand (Binary r a b) = Ok (nand_not X) ∧
       (S (Nat.max (height A) (height B)) ≤ height X)%nat.
Proof.
  unfold to_nand. intros Hr.
  destruct (to_not_and a) as [a'|ea] eqn:Ea; simpl; [|discriminate].
  destruct (to_not_and b) as [b'|eb] eqn:Eb; simpl; [|discriminate].
  intros HA HB.
  binary_cases Hr;
    repeat (rewrite to_not_and_equation_3, Ea, Eb; tags; simpl);
    repeat (progress (tags; simpl; rewrite ?HA, ?HB; simpl));
    (eexists; split; [reflexivity|]); simpl; lia.
Qed.

(** X7. [to_nand] returns only variables unchanged: for a formula of the
    grammar, the result is the input itself exactly when the input is a
    variable; in particular a formula already built of [-&] alone is
    rebuilt into a larger one. *)
Theorem to_nand_fixed (f : Formula) :
  wf f = true →
  to_nand f = Ok f ↔ ∃ x, f = Leaf x ∧ is_variable x = true.
Proof.
  intros Hwf. split.
  - destruct f as [r | r a | r a b]; simpl in Hwf.
    + destruct (is_variable r) eqn:Hv; [eauto|].
      unfold to_nand. rewrite to_not_and_equation_1.
      apply is_constant_cases in Hwf as [-> | ->]; tags; simpl; tags; simpl;
        discriminate.
    + apply andb_true_iff in Hwf as [->%is_unary_eq Ha].
      destruct (to_nand_converts a Ha) as (A & HA & _).
      unfold to_nand in *. rewrite to_not_and_equation_2. tags. simpl.
      destruct (to_not_and a) as [a'|e]; simpl in *; [|discriminate].
      tags. simpl. rewrite HA. simpl. discriminate.
    + apply andb_true_iff in Hwf as [[Hr Ha]%andb_true_iff Hb].
      destruct (to_nand_height a Ha) as (A & HA & BA).
      destruct (to_nand_height b Hb) as (B & HB & BB).
      destruct (to_nand_binary r a b A B Hr HA HB) as (X & -> & HX).
      intros [= _ -> _]. lia.
  - intros (x & -> & Hx). unfold to_nand.
    rewrite to_not_and_equation_1, Hx. simpl. by rewrite Hx.
Qed.


End Converters.

(** ** The results at the book's variable names

    [is_variable_std] meets the two assumptions by computation; the
    statements below are the theorems at concrete formulas and models. *)

(** Off the grammar the defensive branch is what runs. *)
Example unknown_operator_raises :
  to_not_and_or is_variable_std (Binary "?" (Leaf "x") (Leaf "y"))
  = Err (ValueError "Unknown operator: ?").
Proof. reflexivity. Qed.

(** Scenario 5 of the specification: [x+y] through [to_nand]. *)
Example to_nand_xor_xy :
  ∃ g, to_nand is_variable_std (Binary "+" (Leaf "x") (Leaf "y")) = Ok g ∧
       operators is_variable_std g = {[ "-&" ]} ∧
       evaluate is_variable_std g model_xy = Some true.
Proof. eexists. split; [reflexivity|]. split; [|reflexivity]. by vm_compute. Qed.

Lemma converters_preserve_truth_witness :
  ∃ g v, run is_variable_std Nand xor_xp = Ok g ∧
         evaluate is_variable_std xor_xp model_xp = Some v ∧
         evaluate is_variable_std g model_xp = Some v.
Proof.
  apply (converters_preserve_truth is_variable_std eq_refl eq_refl Nand).
  - reflexivity.
  - apply (bool_decide_unpack _). vm_compute. exact I.
  - apply (bool_decide_unpack _). vm_compute. exact I.
Defined.

Lemma converters_basis_closure_witness :
  ∃ g, run is_variable_std ImpliesFalse iff_xT = Ok g ∧
       wf is_variable_std g = true ∧
       operators is_variable_std g ⊆ basis ImpliesFalse.
Proof.
  apply (converters_basis_closure is_variable_std eq_refl eq_refl).
  reflexivity.
Defined.

Lemma to_not_and_or_equations_witness :
  to_not_and_or is_variable_std iff_xT
  = Ok (Binary "|"
          (Binary "&" (Leaf "x")
             (Binary "|" (Leaf "p") (Unary "~" (Leaf "p"))))
          (Binary "&" (Unary "~" (Leaf "x"))
             (Unary "~" (Binary "|" (Leaf "p") (Unary "~" (Leaf "p")))))).
Proof.
  destruct (to_not_and_or_equations is_variable_std eq_refl)
    as (Hvar & HT & _ & _ & Hbin).
  apply (Hbin (Leaf "x") (Leaf "T") _ _ (Hvar "x" eq_refl) HT).
Defined.

Lemma to_implies_not_equations_witness :
  to_implies_not is_variable_std iff_xT
  = Ok (neg (imp (imp (Leaf "x") (imp (Leaf "p") (Leaf "p")))
                 (neg (imp (imp (Leaf "p") (Leaf "p")) (Leaf "x"))))).
Proof.
  destruct (to_implies_not_equations is_variable_std eq_refl)
    as (Hvar & HT & _ & _ & Hbin).
  apply (Hbin (Leaf "x") (Leaf "T") _ _ (Hvar "x" eq_refl) HT).
Defined.

Lemma to_not_and_strategy_witness :
  (∃ xor, to_not_and is_variable_std (Binary "+" (Leaf "x") (Leaf "F")) = Ok xor ∧
          to_not_and is_variable_std (Binary "<->" (Leaf "x") (Leaf "F"))
          = Ok (Unary "~" xor)) ∧
  (∃ g, to_not_and is_variable_std (Binary "|" (Leaf "x") (Leaf "y")) = Ok g ∧
        "|" ∉ operators is_variable_std g).
Proof.
  destruct (to_not_and_strategy is_variable_std eq_refl eq_refl)
    as (HF & _ & Hbin & Hor).
  split.
  - apply (Hbin (Leaf "x") (Leaf "F") (Leaf "x") _ eq_refl HF).
  - apply Hor. reflexivity.
Defined.

Lemma chained_converters_witness :
  ∃ g h, to_not_and is_variable_std xor_xp = Ok g ∧
         to_nand is_variable_std g = Ok h ∧
         operators is_variable_std h ⊆ {[ "-&" ]} ∧
         ∀ m : gmap string bool,
           variables is_variable_std xor_xp ⊆ dom m → "p" ∈ dom m →
           ∃ v, evaluate is_variable_std xor_xp m = Some v ∧
                evaluate is_variable_std h m = Some v.
Proof.
  apply (chained_converters is_variable_std eq_refl eq_refl xor_xp).
  reflexivity.
Defined.

Lemma converters_never_raise_witness :
  (∃ g, run is_variable_std NotAnd iff_xT = Ok g) ∧
  ∀ msg, run is_variable_std NotAnd iff_xT ≠ Err (ValueError msg).
Proof.
  apply (converters_never_raise is_variable_std eq_refl eq_refl).
  reflexivity.
Defined.

Lemma legal_input_equivalent_witness :
  (∃ g v, run is_variable_std ImpliesFalse (Binary "->" (Leaf "x") (Leaf "y"))
          = Ok g ∧
          evaluate is_variable_std (Binary "->" (Leaf "x") (Leaf "y")) model_xy
          = Some v ∧
          evaluate is_variable_std g model_xy = Some v) ∧
  run is_variable_std ImpliesFalse (Leaf "x") = Ok (Leaf "x").
Proof.
  destruct (legal_input_equivalent is_variable_std eq_refl eq_refl
              ImpliesFalse) as [Hlegal Hvar].
  split.
  - apply Hlegal.
    + reflexivity.
    + apply (bool_decide_unpack _). vm_compute. exact I.
    + reflexivity.
    + apply (bool_decide_unpack _). vm_compute. exact I.
  - apply Hvar. reflexivity.
Defined.

Lemma single_pass_identity_witness :
  to_not_and is_variable_std (Binary "&" (Leaf "x") (Unary "~" (Leaf "y")))
  = Ok (Binary "&" (Leaf "x") (Unary "~" (Leaf "y"))) ∧
  ∃ h, to_not_and is_variable_std iff_xT = Ok h ∧
       to_not_and is_variable_std h = Ok h.
Proof.
  destruct (single_pass_identity is_variable_std eq_refl eq_refl NotAnd
              eq_refl) as [Hid Hidem].
  split.
  - apply Hid.
    + reflexivity.
    + apply (bool_decide_unpack _). vm_compute. exact I.
  - apply Hidem. reflexivity.
Defined.

Lemma converters_variables_witness :
  ∃ g, run is_variable_std Nand iff_xT = Ok g ∧
       variables is_variable_std g ⊆ variables is_variable_std iff_xT ∪ {[ "p" ]} ∧
       (has_constant is_variable_std iff_xT = false →
        variables is_variable_std g ⊆ variables is_variable_std iff_xT).
Proof.
  apply (converters_variables is_variable_std eq_refl eq_refl).
  reflexivity.
Defined.

(** *** The further properties at the book's variable names *)

Lemma converters_variables_exact_witness :
  ∃ g, run is_variable_std Nand iff_xT = Ok g ∧
       variables is_variable_std g
       = variables is_variable_std iff_xT
         ∪ (if has_constant is_variable_std iff_xT then {[ "p" ]} else ∅).
Proof.
  apply (converters_variables_exact is_variable_std eq_refl eq_refl).
  reflexivity.
Defined.

Lemma converters_height_witness :
  ∃ g, run is_variable_std Nand iff_xT = Ok g ∧
       (height iff_xT ≤ height g ≤ growth Nand * height iff_xT)%nat.
Proof.
  apply (converters_height is_variable_std eq_refl eq_refl).
  reflexivity.
Defined.

Lemma value_error_names_operator_witness :
  ∃ r, "Unknown operator: ?" = "Unknown operator: " ++ r ∧
       r ∈ operators is_variable_std
             (Binary "&" (Leaf "x") (Binary "?" (Leaf "y") (Leaf "z"))) ∧
       is_binary r = false.
Proof.
  apply (value_error_names_operator is_variable_std Nand).
  reflexivity.
Defined.

Lemma to_nand_equations_witness :
  to_nand is_variable_std (Binary "->" (Leaf "x") (Leaf "F"))
  = Ok (nand_not
          (nand_and (Leaf "x")
             (nand_not (nand_and (Leaf "p") (nand_not (Leaf "p")))))).
Proof.
  destruct (to_nand_equations is_variable_std eq_refl eq_refl)
    as (_ & HF & _ & Hbin).
  apply (Hbin (Leaf "x") (Leaf "F") (Leaf "x") _ eq_refl HF).
Defined.

Lemma to_implies_false_equations_witness :
  to_implies_false is_variable_std (Binary "&" (Leaf "x") (Leaf "F"))
  = Ok (imp (imp (Leaf "x")
               (imp (imp (imp (Leaf "p") (Leaf "p")) (Leaf "F")) (Leaf "F")))
            (Leaf "F")).
Proof.
  destruct (to_implies_false_equations is_variable_std eq_refl eq_refl)
    as (_ & HF & _ & Hbin).
  apply (Hbin (Leaf "x") (Leaf "F") (Leaf "x") _ eq_refl HF).
Defined.

Lemma to_implies_false_legal_witness :
  to_implies_false is_variable_std
    (Binary "->" (Binary "->" (Leaf "x") (Leaf "y")) (Leaf "x"))
  = Ok (Binary "->" (Binary "->" (Leaf "x") (Leaf "y")) (Leaf "x")).
Proof.
  apply (to_implies_false_legal is_variable_std eq_refl eq_refl).
  - reflexivity.
  - apply (bool_decide_unpack _). vm_compute. exact I.
Defined.

Lemma to_nand_fixed_witness :
  to_nand is_variable_std (Binary "-&" (Leaf "x") (Leaf "y"))
  = Ok (Binary "-&" (Leaf "x") (Leaf "y"))
  ↔ ∃ x, Binary "-&" (Leaf "x") (Leaf "y") = Leaf x ∧
         is_variable_std x = true.
Proof.
  apply (to_nand_fixed is_variable_std eq_refl eq_refl).
  reflexivity.
Defined.

